(** * Wastopia backend canister: a shallow embedding of [src/index.ts]

    The canister is a TypeScript program written against the Azle CDK.  Its
    twelve methods read and write five stable maps, consult the ambient
    caller and clock through [ic], and draw random identifiers from
    [uuidv4].  The embedding below keeps that shape:

    - JavaScript values that the code inspects dynamically are elements of
      [value]; the operators [===], [!==] and [!=] are functions on them;
    - every stable map is a [gmap] over the key and record types it is
      declared with: an insert keeps the declared fields of an object and
      throws on an object, or a key, that the declared types cannot encode;
    - a method body is a computation in the monad [M], which threads the
      canister state and propagates JavaScript exceptions; [try_catch]
      is the [try { ... } catch (error) { ... }] block of the source;
    - the ambient caller, clock and the [uuidv4] stream are the fields of
      [Env], passed to every method.

    Numbers of type [nat64] are [Z]; the one place where the source leaves
    integers ([Number(amount) * 0.05]) is modelled with binary64 floats. *)

From Stdlib Require Import ZArith Lia.
From Stdlib Require Import Strings.Byte.
From Stdlib Require Import Floats.PrimFloat Floats.FloatOps Floats.SpecFloat.
From Stdlib Require Import Numbers.Cyclic.Int63.Uint63.
From stdpp Require Import base option list strings pretty gmap.

Local Open Scope string_scope.
Local Open Scope Z_scope.

(** ** JavaScript values *)

(** A principal is an opaque identity; the code only ever uses it as a map
    key and through [toText()]. *)
Record Principal := mkPrincipal { toText : string }.

(** The dynamically typed values that reach [===], [!=] and [hash]. *)
Inductive value :=
| VUndefined
| VBool (b : bool)
| VString (s : string)
| VBigInt (n : Z)
| VPrincipal (p : Principal)
| VBytes (bs : list byte).

Inductive JsError :=
| TypeError (msg : string)
| ReferenceError (msg : string)
| RangeError (msg : string)
| CallRejected (msg : string).

(** The variant [Error] of the source, lines 85-98. *)
Inductive Error :=
| NotFound (msg : string)
| Unauthorized (msg : string)
| Forbidden (msg : string)
| BadRequest (msg : string)
| InternalError (msg : string)
| UserAlreadyExists (msg : string)
| InvalidUserRole (msg : string)
| UserDoesNotExist (msg : string)
| WasteDoesNotExist (msg : string)
| InactiveUser (msg : string)
| UnauthorizedWasteEdit (msg : string)
| InvalidWasteStatusUpdate (msg : string).

Inductive Result (T : Type) :=
| Ok (v : T)
| Err (e : Error).
Arguments Ok {T} v.
Arguments Err {T} e.

(** What a call yields: a returned value, or an exception nobody caught. *)
Inductive outcome (A : Type) :=
| Returned (a : A)
| Uncaught (e : JsError).
Arguments Returned {A} a.
Arguments Uncaught {A} e.

(** [a === b].  Primitives compare by type and value.  Two objects are
    strictly equal only when they are the same allocation; every principal
    and byte array the canister compares is a fresh object, so the
    comparison of two objects is [false]. *)
Definition strict_eq (a b : value) : bool :=
  match a, b with
  | VUndefined, VUndefined => true
  | VBool x, VBool y => Bool.eqb x y
  | VString x, VString y => String.eqb x y
  | VBigInt x, VBigInt y => Z.eqb x y
  | _, _ => false
  end.

Definition strict_neq (a b : value) : bool := negb (strict_eq a b).

(** [p != s] for a principal object [p] and a string [s]: the abstract
    equality converts the object with [toString()], which for a principal
    is [toText()]. *)
Definition principal_loose_neq (p : Principal) (s : string) : bool :=
  negb (String.eqb (toText p) s).

(** [`${error}`] *)
Definition show_error (e : JsError) : string :=
  match e with
  | TypeError m => "TypeError: " ++ m
  | ReferenceError m => "ReferenceError: " ++ m
  | RangeError m => "RangeError: " ++ m
  | CallRejected m => "Error: " ++ m
  end.

(** ** Records *)

Record Owner := mkOwner {
  owner_id : Principal;
  owner_createdAt : Z;
  owner_updatedAt : Z }.

(** The record [User] as declared, lines 33-39, which is what [userStorage]
    keeps and returns. *)
Record User := mkUser {
  user_id : Principal;
  user_name : string;
  user_role : string;
  user_createdAt : Z;
  user_updatedAt : Z }.

(** The object [newUser] of [createUser], lines 159-166: the declared
    fields and a [status]. *)
Record NewUser := mkNewUser {
  newUser_id : Principal;
  newUser_name : string;
  newUser_role : string;
  newUser_status : bool;
  newUser_createdAt : Z;
  newUser_updatedAt : Z }.

(** What [userStorage.insert] keeps of a [newUser]: the fields of the
    declared record.  [status] is not one of them. *)
Definition stored_User (u : NewUser) : User :=
  mkUser (newUser_id u) (newUser_name u) (newUser_role u)
    (newUser_createdAt u) (newUser_updatedAt u).

Record CategoryPayload := mkCategoryPayload {
  cp_name : string;
  cp_price : Z;
  cp_location : string }.

(** The record [Category] as declared, lines 41-48, which is what
    [categoryStorage] keeps and returns. *)
Record Category := mkCategory {
  category_id : string;
  category_name : string;
  category_price : Z;
  category_location : string;
  category_created_at : Z;
  category_updated_at : Z }.

(** The object [newCategory] of [createCategory], lines 369-372: an id, and
    the whole payload as its [name]. *)
Record NewCategory := mkNewCategory {
  newCategory_id : string;
  newCategory_name : CategoryPayload }.

(** The argument of [createWaste] and [updateWaste].  [WastePayload]
    declares [description], [weight] and [status]; the code also reads
    [wastepayload.id] and [wastepayload.categoryId], which are whatever the
    object carries there ([VUndefined] when it carries nothing). *)
Record WastePayload := mkWastePayload {
  wp_id : value;
  wp_categoryId : value;
  wp_description : string;
  wp_weight : Z;
  wp_status : bool }.

(** The object [newWaste] of [createWaste], lines 244-253, with the
    property [senderId] that [updateWaste] reads and writes (a property that
    was never written reads as [VUndefined]). *)
Record Waste := mkWaste {
  waste_id : value;
  waste_categoryId : value;
  waste_description : string;
  waste_weight : Z;
  waste_status : bool;
  waste_authorId : string;
  waste_senderId : value;
  waste_createdAt : Z;
  waste_updatedAt : Z }.

(** The object [newPayment] of [processPayment], lines 448-457. *)
Record Payment := mkPayment {
  payment_id : string;
  payment_waste_id : string;
  payment_weight : Z;
  payment_amount : Z;
  payment_method : string;
  payment_transaction_id : string;
  payment_paid_at : Z;
  payment_fees : Z }.

(** ** Keys of the stable maps *)

Global Instance Principal_eq_dec : EqDecision Principal.
Proof. solve_decision. Defined.

Global Instance Principal_countable : Countable Principal.
Proof.
  refine (inj_countable' toText mkPrincipal _).
  intros []; reflexivity.
Defined.

Global Instance byte_eq_dec : EqDecision byte := Byte.byte_eq_dec.

Global Instance byte_countable : Countable byte.
Proof.
  refine (inj_countable Byte.to_N Byte.of_N _).
  exact Byte.of_to_N.
Defined.

Global Instance value_eq_dec : EqDecision value.
Proof. solve_decision. Defined.

Definition value_encode (v : value) : unit + bool + string + Z + Principal + list byte :=
  match v with
  | VUndefined => inl (inl (inl (inl (inl tt))))
  | VBool b => inl (inl (inl (inl (inr b))))
  | VString s => inl (inl (inl (inr s)))
  | VBigInt n => inl (inl (inr n))
  | VPrincipal p => inl (inr p)
  | VBytes bs => inr bs
  end.

Definition value_decode (x : unit + bool + string + Z + Principal + list byte) : value :=
  match x with
  | inl (inl (inl (inl (inl _)))) => VUndefined
  | inl (inl (inl (inl (inr b)))) => VBool b
  | inl (inl (inl (inr s))) => VString s
  | inl (inl (inr n)) => VBigInt n
  | inl (inr p) => VPrincipal p
  | inr bs => VBytes bs
  end.

Global Instance value_countable : Countable value.
Proof.
  refine (inj_countable' value_encode value_decode _).
  intros []; reflexivity.
Defined.

(** ** Canister state and ambient context *)

(** The five [StableBTreeMap]s of lines 101-105. *)
Record State := mkState {
  ownerStorage : gmap Principal Owner;
  userStorage : gmap Principal User;
  categoryStorage : gmap string Category;
  wasteStorage : gmap string Waste;
  paymentStorage : gmap string Payment }.

Definition init_state : State :=
  mkState ∅ ∅ ∅ ∅ ∅.

(** The listing stored under a key given as a JavaScript value.  The keys
    of [wasteStorage] are declared [text]: only a string names one. *)
Global Instance wasteStorage_lookup_value : Lookup value Waste (gmap string Waste) :=
  λ k m, match k with
         | VString s => m !! s
         | _ => None
         end.

(** What a message execution sees of the outside: [ic.caller()],
    [ic.time()] (constant during one message) and the successive results of
    [uuidv4()]. *)
Record Env := mkEnv {
  caller : Principal;
  time : Z;
  uuidv4 : nat → string }.

(** ** The monad of method bodies *)

Definition M (A : Type) : Type := State → outcome A * State.

Global Instance M_ret : MRet M := λ A a st, (Returned a, st).

Global Instance M_bind : MBind M := λ A B f m st,
  match m st with
  | (Returned a, st') => f a st'
  | (Uncaught e, st') => (Uncaught e, st')
  end.

Definition throw {A} (e : JsError) : M A := λ st, (Uncaught e, st).

Definition get_state : M State := λ st, (Returned st, st).

Definition modify_state (f : State → State) : M unit := λ st, (Returned tt, f st).

(** [try { body } catch (error) { handler error }] *)
Definition try_catch {A} (body : M A) (handler : JsError → M A) : M A := λ st,
  match body st with
  | (Returned a, st') => (Returned a, st')
  | (Uncaught e, st') => handler e st'
  end.

(** The handler every method uses:
    [catch (error) { return Err({ InternalError: `${error}` }); }] *)
Definition internal_error {T} (error : JsError) : M (Result T) :=
  mret (Err (InternalError (show_error error))).

(** [o.Some.field]: when [o] is [None], [o.Some] is [undefined] and the
    property read throws a [TypeError]. *)
Definition read_Some {A B} (o : option A) (field : string) (proj : A → B) : M B :=
  match o with
  | Some a => mret (proj a)
  | None => throw (TypeError ("Cannot read properties of undefined (reading '" ++ field ++ "')"))
  end.

(** [!!v]: whether a value counts as true in a condition. *)
Definition truthy (v : value) : bool :=
  match v with
  | VUndefined => false
  | VBool b => b
  | VString s => negb (String.eqb s EmptyString)
  | VBigInt n => negb (n =? 0)
  | VPrincipal _ | VBytes _ => true
  end.

(** A key handed to a map whose keys are declared [text]: the map encodes
    the key first, and the encoder throws on anything but a string. *)
Definition text_key (k : value) : M string :=
  match k with
  | VString s => mret s
  | _ => throw (TypeError "Invalid text argument")
  end.

(** [map.insert(key, object)] for an object that lacks fields of the record
    the map is declared with: the encoder throws and nothing is stored. *)
Definition insert_unfit (record missing : string) : M unit :=
  throw (TypeError ("Record " ++ record ++ " is missing the field " ++ missing)).

(** Evaluating an identifier that no scope declares. *)
Definition undeclared (name : string) : M value :=
  throw (ReferenceError (name ++ " is not defined")).

(** [map.containsKey(k)], [map.isEmpty()], [map.values()] *)
Definition containsKey `{Countable K} {V} (m : gmap K V) (k : K) : bool :=
  bool_decide (is_Some (m !! k)).

Definition isEmpty `{Countable K} {V} (m : gmap K V) : bool :=
  bool_decide (m = ∅).

Definition values `{Countable K} {V} (m : gmap K V) : list V :=
  (map_to_list m).*2.

Definition set_ownerStorage (f : gmap Principal Owner → gmap Principal Owner) (st : State) : State :=
  mkState (f (ownerStorage st)) (userStorage st) (categoryStorage st) (wasteStorage st) (paymentStorage st).

Definition set_userStorage (f : gmap Principal User → gmap Principal User) (st : State) : State :=
  mkState (ownerStorage st) (f (userStorage st)) (categoryStorage st) (wasteStorage st) (paymentStorage st).

Definition set_categoryStorage (f : gmap string Category → gmap string Category) (st : State) : State :=
  mkState (ownerStorage st) (userStorage st) (f (categoryStorage st)) (wasteStorage st) (paymentStorage st).

Definition set_wasteStorage (f : gmap string Waste → gmap string Waste) (st : State) : State :=
  mkState (ownerStorage st) (userStorage st) (categoryStorage st) (f (wasteStorage st)) (paymentStorage st).

Definition set_paymentStorage (f : gmap string Payment → gmap string Payment) (st : State) : State :=
  mkState (ownerStorage st) (userStorage st) (categoryStorage st) (wasteStorage st) (f (paymentStorage st)).

(** [o.Some] handed on as a whole record.  Every use follows a successful
    [containsKey] on the same key. *)
Definition the_Some {A} (o : option A) : M A :=
  match o with
  | Some a => mret a
  | None => throw (TypeError "undefined is not a record")
  end.

(** ** Numbers: [Number(amount) * 0.05] *)

(** [Number(a)] for a [nat64] [a]: the nearest binary64 value, ties to
    even.  [of_uint63] rounds a 63-bit integer that way; a 64-bit integer is
    first halved with its lowest bit kept sticky, which leaves the rounding
    of the 53-bit mantissa unchanged. *)
Definition Number (a : Z) : float :=
  if a <? 2 ^ 63 then PrimFloat.of_uint63 (Uint63.of_Z a)
  else PrimFloat.mul (PrimFloat.of_uint63 (Uint63.of_Z 2))
         (PrimFloat.of_uint63 (Uint63.of_Z (Z.lor (Z.shiftr a 1) (Z.land a 1)))).

#[local] Set Warnings "-inexact-float".
(** [const feesAsNumber = amountAsNumber * 0.05;] (line 442) *)
Definition feesAsNumber (amount : Z) : float :=
  let amountAsNumber := Number amount in
  PrimFloat.mul amountAsNumber 0.05%float.
#[local] Set Warnings "inexact-float".

(** The integer a binary64 value denotes, when it denotes one. *)
Definition integer_of_float (f : float) : option Z :=
  match Prim2SF f with
  | S754_zero _ => Some 0
  | S754_finite s m e =>
      let v := if s then Z.neg m else Z.pos m in
      if 0 <=? e then Some (v * 2 ^ e)
      else if Z.pos m mod 2 ^ (- e) =? 0 then Some (v / 2 ^ (- e))
      else None
  | S754_infinity _ | S754_nan => None
  end.

(** [BigInt(x)] of the language: the integer [x] denotes, a [RangeError]
    when [x] is not an integer. *)
Definition BigInt (x : float) : outcome Z :=
  match integer_of_float x with
  | Some z => Returned z
  | None => Uncaught (RangeError "The number cannot be converted to a BigInt because it is not an integer")
  end.

(** ** The canister methods *)

(** [const USER_ROLES = ["sender", "receiver"];] *)
Definition USER_ROLES : list string := ["sender"; "receiver"].

(** [USER_ROLES.join(', ')] *)
Fixpoint join (sep : string) (l : list string) : string :=
  match l with
  | [] => EmptyString
  | [x] => x
  | x :: rest => x ++ sep ++ join sep rest
  end.

(** [isOwner], lines 107-109. *)
Definition isOwner (st : State) (caller : Principal) : bool :=
  containsKey (ownerStorage st) caller.

Section Canister.

(** [nat64.fromNumber] comes from the Azle CDK; the canister only fixes
    that it is applied to a binary64 number and either yields a [nat64] or
    throws. *)
Variable nat64_fromNumber : float → outcome Z.

(** [initOwner], lines 118-136.  The emptiness test sits before the [try]. *)
Definition initOwner (env : Env) : M (Result Principal) :=
  st ← get_state;
  if negb (isEmpty (ownerStorage st)) then
    mret (Err (BadRequest "Owner has already been initialized"))
  else
    try_catch
      (let newOwner := mkOwner (caller env) (time env) (time env) in
       modify_state (set_ownerStorage <[caller env := newOwner]>);;
       mret (Ok (caller env)))
      internal_error.

(** [createUser], lines 144-173.  The argument is both name and role.  The
    map keeps the declared fields of [newUser]; the method returns
    [newUser] itself. *)
Definition createUser (env : Env) (name : string) : M (Result NewUser) :=
  let currentPrincipal := caller env in
  try_catch
    (st ← get_state;
     if containsKey (userStorage st) currentPrincipal then
       mret (Err (UserAlreadyExists "You already have an account"))
     else if negb (bool_decide (name ∈ USER_ROLES)) then
       mret (Err (InvalidUserRole
         ("Invalid role '" ++ name ++ "'. Valid roles are: " ++ join ", " USER_ROLES)))
     else
       let newUser := mkNewUser currentPrincipal name name true (time env) (time env) in
       modify_state (set_userStorage <[newUser_id newUser := stored_User newUser]>);;
       mret (Ok newUser))
    internal_error.

(** [getUsers], lines 180-191. *)
Definition getUsers (env : Env) : M (Result (list User)) :=
  st ← get_state;
  if negb (isOwner st (caller env)) then
    mret (Err (Forbidden "Action reserved for the contract owner"))
  else
    try_catch
      (let users := values (userStorage st) in
       mret (Ok users))
      internal_error.

(** [getMe], lines 198-214. *)
Definition getMe (env : Env) : M (Result User) :=
  let currentPrincipal := caller env in
  try_catch
    (st ← get_state;
     if negb (containsKey (userStorage st) currentPrincipal) then
       mret (Err (Unauthorized "Create an account first"))
     else
       let user := userStorage st !! currentPrincipal in
       u ← the_Some user;
       mret (Ok u))
    internal_error.

(** [getActiveWasteById], lines 216-227. *)
Definition getActiveWasteById (env : Env) (id : string) : M (Result Waste) :=
  try_catch
    (st ← get_state;
     let waste := wasteStorage st !! id in
     match waste with
     | None => mret (Err (WasteDoesNotExist "Waste item does not exist"))
     | Some w => mret (Ok w)
     end)
    internal_error.

(** [createWaste], lines 228-260.  Line 239 reads [status] from the stored
    user, a property the declared [User] record does not have.  The object
    [newWaste] carries [categoryId] and [authorId] where the declared
    [Waste] record has [category_id] and [authoId], so that the insert of
    line 254 cannot encode it. *)
Definition createWaste (env : Env) (wastepayload : WastePayload) : M (Result Waste) :=
  let currentPrincipal := caller env in
  try_catch
    (st ← get_state;
     if negb (containsKey (userStorage st) currentPrincipal) then
       mret (Err (Unauthorized "Create an account first"))
     else
       let user := userStorage st !! currentPrincipal in
       status ← read_Some user "status" (λ _ : User, VUndefined);
       if negb (truthy status) then
         mret (Err (Forbidden "Account is currently deactived"))
       else
         let newWaste :=
           {| waste_id := wp_id wastepayload;
              waste_categoryId := wp_categoryId wastepayload;
              waste_description := wp_description wastepayload;
              waste_weight := wp_weight wastepayload;
              waste_status := wp_status wastepayload;
              waste_authorId := toText currentPrincipal;
              waste_senderId := VUndefined;
              waste_createdAt := time env;
              waste_updatedAt := time env |} in
         text_key (waste_id newWaste);;
         insert_unfit "Waste" "category_id";;
         mret (Ok newWaste))
    internal_error.

(** [updateWaste], lines 269-312.  Line 287 reads the identifier [current],
    which neither the function nor the module declares. *)
Definition updateWaste (env : Env) (wastepayload : WastePayload) : M (Result Waste) :=
  try_catch
    (st ← get_state;
     key ← text_key (wp_id wastepayload);
     if negb (containsKey (wasteStorage st) key) then
       mret (Err (NotFound "Waste not found"))
     else
       let waste := wasteStorage st !! key in
       let currentStatus := wp_status wastepayload in
       currentSender ← read_Some waste "senderId" waste_senderId;
       let userInfo := userStorage st !! caller env in
       let currentPrincipal := caller env in
       role ← read_Some userInfo "role" user_role;
       notOwn ← (if String.eqb role "sender" then
                   authorId ← read_Some waste "authorId" waste_authorId;
                   mret (principal_loose_neq currentPrincipal authorId)
                 else mret false);
       if notOwn : bool then
         mret (Err (Forbidden "You can only edit your own selling item."))
       else
         current ← undeclared "current";
         authorId ← read_Some waste "authorId" waste_authorId;
         notReceiver ← (if strict_neq current (VString authorId) then
                          role ← read_Some userInfo "role" user_role;
                          mret (strict_neq (VString role) (VString "receiver"))
                        else mret false);
         if notReceiver : bool then
           mret (Err (Forbidden "Only receiver can verify and edit the waste item"))
         else
           role ← read_Some userInfo "role" user_role;
           let currentStatus :=
             if String.eqb role "sender" then wp_status wastepayload else currentStatus in
           let currentSender :=
             if String.eqb role "sender" then VString (toText currentPrincipal)
             else currentSender in
           w ← the_Some waste;
           id ← text_key (waste_id w);
           modify_state (set_wasteStorage
             <[id :=
                 {| waste_id := waste_id w;
                    waste_categoryId := wp_categoryId wastepayload;
                    waste_description := wp_description wastepayload;
                    waste_weight := wp_weight wastepayload;
                    waste_status := currentStatus;
                    waste_authorId := waste_authorId w;
                    waste_senderId := currentSender;
                    waste_createdAt := waste_createdAt w;
                    waste_updatedAt := time env |}]>);;
           mret (Ok w))
    internal_error.

(** [getActiveWastes], lines 314-325. *)
Definition getActiveWastes (env : Env) : M (Result (list Waste)) :=
  try_catch
    (st ← get_state;
     let wastes :=
       List.filter (λ waste, strict_eq (VBool (waste_status waste)) (VString "active"))
         (values (wasteStorage st)) in
     mret (Ok wastes))
    internal_error.

(** [getInactiveWastes], lines 327-342.  The role test sits before the
    [try]. *)
Definition getInactiveWastes (env : Env) : M (Result (list Waste)) :=
  st ← get_state;
  role ← read_Some (userStorage st !! caller env) "role" user_role;
  if strict_neq (VString role) (VString "buyer") then
    mret (Err (Forbidden "Only buyer can verify and edit your waste items"))
  else
    try_catch
      (let wastes :=
         List.filter (λ waste, strict_eq (VBool (waste_status waste)) (VString "inactive"))
           (values (wasteStorage st)) in
       mret (Ok wastes))
      internal_error.

(** [getAllCategories], lines 348-356. *)
Definition getAllCategories (env : Env) : M (Result (list Category)) :=
  try_catch
    (st ← get_state;
     let categories := values (categoryStorage st) in
     mret (Ok categories))
    internal_error.

(** [createCategory], lines 363-379.  The declared [Category] record has
    six fields, [newCategory] has an id and a payload: the insert of line
    373 cannot encode it. *)
Definition createCategory (env : Env) (name : CategoryPayload) : M (Result NewCategory) :=
  st ← get_state;
  if negb (isOwner st (caller env)) then
    mret (Err (Forbidden "Action reserved for new waste category"))
  else
    try_catch
      (let newCategory := mkNewCategory (uuidv4 env 0) name in
       insert_unfit "Category" "price";;
       mret (Ok newCategory))
      internal_error.

(** [getActiveWasteByCategory], lines 394-410. *)
Definition getActiveWasteByCategory (env : Env) (categoryId : string) : M (Result (list Waste)) :=
  try_catch
    (st ← get_state;
     let waste :=
       List.filter
         (λ waste, strict_eq (waste_categoryId waste) (VString categoryId) && waste_status waste)
         (values (wasteStorage st)) in
     mret (Ok waste))
    internal_error.

(** A call into the CDK that returns or throws. *)
Definition lift_outcome {A} (o : outcome A) : M A := λ st, (o, st).

(** [processPayment], lines 419-468.  [waste == None] holds exactly when the
    map has no entry for the key. *)
Definition processPayment (env : Env) (wasteId : string) (amount : Z) (paymentMethod : string)
  : M (Result Payment) :=
  let currentPrincipal := caller env in
  try_catch
    (st ← get_state;
     let waste := wasteStorage st !! wasteId in
     match waste with
     | None => mret (Err (BadRequest "Invalid waste item"))
     | Some w =>
       if strict_neq (VBool (waste_status w)) (VString "active") then
         mret (Err (BadRequest "Invalid waste item"))
       else
         let user := userStorage st !! currentPrincipal in
         match user with
         | None => mret (Err (Unauthorized "Only buyers can process payments"))
         | Some u =>
           if strict_neq (VString (user_role u)) (VString "buyer") then
             mret (Err (Unauthorized "Only buyers can process payments"))
           else
             let feesAsNumber := feesAsNumber amount in
             fees ← lift_outcome (nat64_fromNumber feesAsNumber);
             let newPayment :=
               {| payment_id := uuidv4 env 0;
                  payment_waste_id := wasteId;
                  payment_weight := waste_weight w;
                  payment_amount := amount;
                  payment_method := paymentMethod;
                  payment_transaction_id := "TX_" ++ uuidv4 env 1;
                  payment_paid_at := time env;
                  payment_fees := fees |} in
             modify_state (set_paymentStorage <[payment_id newPayment := newPayment]>);;
             mret (Ok newPayment)
         end
     end)
    internal_error.

(** *** Messages *)

Inductive Call :=
| CallInitOwner
| CallCreateUser (name : string)
| CallGetUsers
| CallGetMe
| CallGetActiveWasteById (id : string)
| CallCreateWaste (wastepayload : WastePayload)
| CallUpdateWaste (wastepayload : WastePayload)
| CallGetActiveWastes
| CallGetInactiveWastes
| CallGetAllCategories
| CallCreateCategory (name : CategoryPayload)
| CallGetActiveWasteByCategory (categoryId : string)
| CallProcessPayment (wasteId : string) (amount : Z) (paymentMethod : string).

(** The state a message leaves behind; a message that ends in an uncaught
    exception traps and leaves the state it found. *)
Definition committed {A} (m : M A) (st : State) : State :=
  match m st with
  | (Returned _, st') => st'
  | (Uncaught _, _) => st
  end.

Definition step (st : State) (msg : Env * Call) : State :=
  let env := msg.1 in
  match msg.2 with
  | CallInitOwner => committed (initOwner env) st
  | CallCreateUser name => committed (createUser env name) st
  | CallGetUsers => committed (getUsers env) st
  | CallGetMe => committed (getMe env) st
  | CallGetActiveWasteById id => committed (getActiveWasteById env id) st
  | CallCreateWaste p => committed (createWaste env p) st
  | CallUpdateWaste p => committed (updateWaste env p) st
  | CallGetActiveWastes => committed (getActiveWastes env) st
  | CallGetInactiveWastes => committed (getInactiveWastes env) st
  | CallGetAllCategories => committed (getAllCategories env) st
  | CallCreateCategory p => committed (createCategory env p) st
  | CallGetActiveWasteByCategory c => committed (getActiveWasteByCategory env c) st
  | CallProcessPayment w a m => committed (processPayment env w a m) st
  end.

End Canister.

(** ** Correlation ids, pending orders and the ledger *)

(** Modelled from the spec: the ledger canister [icpCanister] and the types
    of [query_blocks] are not declared in the source.  Section 6 of the
    specification gives the interface: a query taking [(startBlock, length)]
    and returning a sequence of blocks, each optionally containing a
    transfer operation with [from], [to], [amount] and [memo]. *)
Record Tokens := mkTokens { e8s : Z }.

Inductive Operation :=
| Transfer (from to : list byte) (amount fee : Tokens)
| Mint (to : list byte) (amount : Tokens)
| Burn (from : list byte) (amount : Tokens).

Record Transaction := mkTransaction {
  memo : Z;
  operation : option Operation }.

Record Block := mkBlock { transaction : Transaction }.

Record QueryBlocksResponse := mkQueryBlocksResponse { blocks : list Block }.

(** [operation.Transfer?.from], [operation.Transfer?.to] and
    [operation.Transfer?.amount.e8s]: [undefined] for an operation that is
    not a transfer. *)
Definition Transfer_from (op : Operation) : value :=
  match op with
  | Transfer from _ _ _ => VBytes from
  | _ => VUndefined
  end.

Definition Transfer_to (op : Operation) : value :=
  match op with
  | Transfer _ to _ _ => VBytes to
  | _ => VUndefined
  end.

Definition Transfer_amount_e8s (op : Operation) : value :=
  match op with
  | Transfer _ _ amount _ => VBigInt (e8s amount)
  | _ => VUndefined
  end.

Section Ledger.

(** [hashCode().value] of the package [hashcode]: an integer-valued number
    for any input. *)
Variable hashCode_value : value → Z.

(** [binaryAddressFromPrincipal] is used but not declared in the source: the
    ledger address derived from a principal and a subaccount. *)
Variable binaryAddressFromPrincipal : Principal → Z → list byte.

(** [function hash(input: any): nat64], lines 475-477:
    [BigInt(Math.abs(hashCode().value(input)))] *)
Definition hash (input : value) : Z :=
  Z.abs (hashCode_value input).

(** [generateCorrelationId], lines 491-494. *)
Definition generateCorrelationId (env : Env) (productId : string) : Z :=
  let correlationId :=
    productId ++ "_" ++ toText (caller env) ++ "_" ++ pretty (time env) in
  hash (VString correlationId).

(** The predicate handed to [blockData.blocks.find], lines 508-519. *)
Definition matches_transfer (env : Env) (receiver : Principal) (amount memo_ : Z)
    (block : Block) : bool :=
  match operation (transaction block) with
  | None => false
  | Some operation =>
    let senderAddress := binaryAddressFromPrincipal (caller env) 0 in
    let receiverAddress := binaryAddressFromPrincipal receiver 0 in
    (memo (transaction block) =? memo_)
    && (hash (VBytes senderAddress) =? hash (Transfer_from operation))
    && (hash (VBytes receiverAddress) =? hash (Transfer_to operation))
    && strict_eq (VBigInt amount) (Transfer_amount_e8s operation)
  end.

(** [verifyPaymentInternal], lines 506-521.  [ledger start length] is what
    [await ic.call(icpCanister.query_blocks, ...)] resumes with: a response,
    or the exception of a rejected call. *)
Definition verifyPaymentInternal (ledger : Z → Z → outcome QueryBlocksResponse)
    (env : Env) (receiver : Principal) (amount block memo_ : Z) : outcome bool :=
  match ledger block 1 with
  | Uncaught e => Uncaught e
  | Returned blockData =>
    let tx := List.find (matches_transfer env receiver amount memo_) (blocks blockData) in
    Returned (match tx with Some _ => true | None => false end)
  end.

End Ledger.

(** ** Histories *)

(** What can happen at the canister: a message arrives, or
    [verifyPaymentInternal] runs and reports.  No method of the canister
    starts the verifier and it is not exported; a history admits its runs
    at any point, so that statements over histories cover every schedule. *)
Inductive Event :=
| Message (env : Env) (c : Call)
| Verification (env : Env) (receiver : Principal) (amount block memo_ : Z).

Section System.

Variable nat64_fromNumber : float → outcome Z.

(** [verifyPaymentInternal] touches no stable map. *)
Definition exec (st : State) (ev : Event) : State :=
  match ev with
  | Message env c => step nat64_fromNumber st (env, c)
  | Verification _ _ _ _ _ => st
  end.

(** The state after a history, starting from the freshly installed
    canister. *)
Definition run (history : list Event) : State :=
  foldl exec init_state history.

End System.

(** ** Reference definitions *)

(** The fee as the specification words it: [floor(amount * 5 / 100)] in
    exact integer arithmetic. *)
Definition fee_spec (amount : Z) : Z := amount * 5 / 100.

(** A transfer that is the one asked for, as the specification words it:
    memo, source address, destination address and amount all equal. *)
Definition exact_match (binaryAddressFromPrincipal : Principal → Z → list byte)
    (env : Env) (receiver : Principal) (amount memo_ : Z) (block : Block) : Prop :=
  ∃ from to amt fee,
    operation (transaction block) = Some (Transfer from to amt fee)
    ∧ memo (transaction block) = memo_
    ∧ from = binaryAddressFromPrincipal (caller env) 0
    ∧ to = binaryAddressFromPrincipal receiver 0
    ∧ e8s amt = amount.

(** What the code compares instead: the 64-bit [hash] of the addresses. *)
Definition hash_match (hashCode_value : value → Z)
    (binaryAddressFromPrincipal : Principal → Z → list byte)
    (env : Env) (receiver : Principal) (amount memo_ : Z) (block : Block) : Prop :=
  ∃ from to amt fee,
    operation (transaction block) = Some (Transfer from to amt fee)
    ∧ memo (transaction block) = memo_
    ∧ hash hashCode_value (VBytes from)
      = hash hashCode_value (VBytes (binaryAddressFromPrincipal (caller env) 0))
    ∧ hash hashCode_value (VBytes to)
      = hash hashCode_value (VBytes (binaryAddressFromPrincipal receiver 0))
    ∧ e8s amt = amount.

(** ** Sample instances of the parameters *)

(** A 32-bit string hash in the style of [String.hashCode]: the running
    value times 31 plus the next byte, kept in 32 bits.  It instantiates
    [hashCode_value] in the examples. *)
Definition wrap32 (z : Z) : Z := (z + 2 ^ 31) mod 2 ^ 32 - 2 ^ 31.

Definition hash31 (bs : list Z) : Z :=
  foldl (λ h b, wrap32 (h * 31 + b)) 0 bs.

Definition string_codes (s : string) : list Z :=
  (λ c, Z.of_N (Ascii.N_of_ascii c)) <$> String.list_ascii_of_string s.

Definition sample_hashCode (v : value) : Z :=
  match v with
  | VString s => hash31 (string_codes s)
  | VBytes bs => hash31 ((λ b, Z.of_N (Byte.to_N b)) <$> bs)
  | _ => 0
  end.

(** An address derivation for the examples: the bytes of the textual form,
    padded with zero bytes to 32. *)
Definition sample_address (p : Principal) (subaccount : Z) : list byte :=
  let bs := String.list_byte_of_string (toText p) in
  take 32 (bs ++ replicate 32 x00%byte).

Definition sample_uuid (n : nat) : string := "uuid-" ++ pretty n.

(** ** Invariants and sample data *)

(** Every registered user carries one of the two roles of [USER_ROLES]. *)
Definition roles_ok (st : State) : Prop :=
  map_Forall (λ _ u, user_role u ∈ USER_ROLES) (userStorage st).

Definition alice : Principal := mkPrincipal "alice".
Definition bob : Principal := mkPrincipal "bob".
Definition carol : Principal := mkPrincipal "carol".

Definition env_of (p : Principal) (t : Z) : Env := mkEnv p t sample_uuid.

Definition sample_payload (id : string) (status : bool) : WastePayload :=
  {| wp_id := VString id;
     wp_categoryId := VString "paper";
     wp_description := "old newspapers";
     wp_weight := 10;
     wp_status := status |}.

(** Alice and Carol register as senders, Bob as a receiver. *)
Definition sample_history : list Event :=
  [ Message (env_of alice 1) (CallCreateUser "sender");
    Message (env_of bob 2) (CallCreateUser "receiver");
    Message (env_of carol 3) (CallCreateUser "sender") ].

Definition sample_listing (id : string) (status : bool) (t : Z) : Waste :=
  mkWaste (VString id) (VString "paper") "old newspapers" 10 status "alice" VUndefined t t.

(** The three users of [sample_history], and two listings by Alice: [w1]
    unverified and [w2] verified.  The state is written down, not reached:
    it instantiates statements that hold for every state. *)
Definition sample_state : State :=
  set_wasteStorage
    (λ _, <["w1" := sample_listing "w1" false 4]> (<["w2" := sample_listing "w2" true 5]> ∅))
    (run BigInt sample_history).

(** A 32-byte address that differs from [sample_address alice 0] in its
    fifth and sixth byte. *)
Definition colliding_address : list byte :=
  String.list_byte_of_string "alicd" ++ [x1f%byte] ++ replicate 26 x00%byte.

(** A ledger whose every window holds one block: a transfer of 1000 from
    [colliding_address] to Bob's address, with memo 42. *)
Definition sample_ledger (start length : Z) : outcome QueryBlocksResponse :=
  Returned (mkQueryBlocksResponse
    [ mkBlock (mkTransaction 42
        (Some (Transfer colliding_address (sample_address bob 0)
                 (mkTokens 1000) (mkTokens 10)))) ]).

(** ** Invariants of reachable states *)

(** A user record as [createUser] stores it: under its own id, the role
    equal to the name and one of [USER_ROLES], never updated. *)
Definition user_wf (p : Principal) (u : User) : Prop :=
  user_id u = p
  ∧ user_name u = user_role u
  ∧ user_role u ∈ USER_ROLES
  ∧ user_createdAt u = user_updatedAt u.

(** What every reachable state satisfies: at most one owner, stored under
    its own id; well-formed users; and no listing, category or payment. *)
Definition state_wf (st : State) : Prop :=
  (size (ownerStorage st) ≤ 1)%nat
  ∧ map_Forall (λ p o, owner_id o = p) (ownerStorage st)
  ∧ map_Forall user_wf (userStorage st)
  ∧ wasteStorage st = ∅
  ∧ categoryStorage st = ∅
  ∧ paymentStorage st = ∅.

(** The same caller at another time, with other random identifiers. *)
Definition again (env : Env) (t : Z) (uuid : nat → string) : Env :=
  mkEnv (caller env) t uuid.

(** ** The fee step on a range of amounts *)

(** The integer part, rounded down, of the number a binary64 value
    denotes. *)
Definition floor_of_float (f : float) : option Z :=
  match Prim2SF f with
  | S754_zero _ => Some 0
  | S754_finite s m e =>
      let v := if s then Z.neg m else Z.pos m in
      if 0 <=? e then Some (v * 2 ^ e) else Some (v / 2 ^ (- e))
  | S754_infinity _ | S754_nan => None
  end.

(** What [feesAsNumber] is on a small amount: an integer exactly when 20
    divides the amount, and with integer part [fee_spec amount]. *)
Definition fee_step_agrees (amount : Z) : bool :=
  bool_decide
    (integer_of_float (feesAsNumber amount)
     = if amount mod 20 =? 0 then Some (amount / 20) else None)
  && bool_decide (floor_of_float (feesAsNumber amount) = Some (fee_spec amount)).

(** [P a], [P (a + 1)], ..., [P (a + n - 1)] all hold. *)
Fixpoint all_from (P : Z → bool) (a : Z) (n : nat) : bool :=
  match n with
  | O => true
  | S n => P a && all_from P (a + 1) n
  end.

(** * Properties *)

(** ** Generic facts about the embedding *)

Ltac unfold_method :=
  unfold initOwner, createUser, getUsers, getMe, getActiveWasteById, createWaste,
    updateWaste, getActiveWastes, getInactiveWastes, getAllCategories, createCategory,
    getActiveWasteByCategory, processPayment, try_catch, internal_error, read_Some,
    the_Some, undeclared, text_key, insert_unfit, lift_outcome, throw, modify_state,
    get_state,
    mbind, M_bind, mret, M_ret.

Lemma containsKey_true `{Countable K} {V} (m : gmap K V) k v :
  m !! k = Some v → containsKey m k = true.
Proof. intros E. unfold containsKey. rewrite E. apply bool_decide_eq_true. eauto. Qed.

Lemma containsKey_false `{Countable K} {V} (m : gmap K V) k :
  m !! k = None → containsKey m k = false.
Proof.
  intros E. unfold containsKey. rewrite E. apply bool_decide_eq_false.
  intros [? ?]; discriminate.
Qed.

Lemma lookup_value_inv (m : gmap string Waste) (k : value) w :
  m !! k = Some w → ∃ s, k = VString s ∧ m !! s = Some w.
Proof.
  destruct k; try discriminate. intros H. eauto.
Qed.

(** A boolean is never strictly equal to a string. *)
Lemma strict_eq_bool_string b s : strict_eq (VBool b) (VString s) = false.
Proof. reflexivity. Qed.

(** ** processPayment *)

Lemma processPayment_rejects f env wasteId amount method st :
  processPayment f env wasteId amount method st
  = (Returned (Err (BadRequest "Invalid waste item")), st).
Proof.
  unfold_method.
  destruct (wasteStorage st !! wasteId) as [w|]; reflexivity.
Qed.

(** ** updateWaste *)

(** No run of [updateWaste] writes to a stable map. *)
Lemma updateWaste_state env p st : (updateWaste env p st).2 = st.
Proof.
  unfold_method.
  repeat case_match; simplify_eq/=; reflexivity.
Qed.

(** The only results [updateWaste] has. *)
Lemma updateWaste_results env p st :
  ∃ msg, (updateWaste env p st).1 = Returned (Err (NotFound msg))
       ∨ (updateWaste env p st).1 = Returned (Err (Forbidden msg))
       ∨ (updateWaste env p st).1 = Returned (Err (InternalError msg)).
Proof.
  unfold_method.
  repeat case_match; simplify_eq/=; eauto.
Qed.

(** Past the author test of a sender, [updateWaste] stops at the
    undeclared identifier [current]. *)
Lemma updateWaste_current env p st w u :
  wasteStorage st !! wp_id p = Some w →
  userStorage st !! caller env = Some u →
  (user_role u = "sender" → toText (caller env) = waste_authorId w) →
  updateWaste env p st
  = (Returned (Err (InternalError "ReferenceError: current is not defined")), st).
Proof.
  intros Hw Hu Hauth. apply lookup_value_inv in Hw as (k & Hk & Hw).
  unfold_method. rewrite Hk. simpl.
  rewrite (containsKey_true _ _ _ Hw), Hw, Hu. simpl.
  destruct (String.eqb (user_role u) "sender") eqn:E; simpl; [|reflexivity].
  apply String.eqb_eq in E. unfold principal_loose_neq.
  rewrite (Hauth E), String.eqb_refl. reflexivity.
Qed.

(** ** Histories *)

Lemma step_paymentStorage f st msg :
  paymentStorage (step f st msg) = paymentStorage st.
Proof.
  destruct msg as [env []]; unfold step, committed; simpl.
  all: try (rewrite processPayment_rejects; reflexivity).
  all: unfold_method.
  all: repeat case_match; simplify_eq/=; reflexivity.
Qed.

Lemma exec_paymentStorage f st ev :
  paymentStorage (exec f st ev) = paymentStorage st.
Proof. destruct ev; simpl; [apply step_paymentStorage | reflexivity]. Qed.

Lemma foldl_exec_paymentStorage f history st :
  paymentStorage (foldl (exec f) st history) = paymentStorage st.
Proof.
  revert st. induction history as [|ev history IH]; intros st; simpl; [reflexivity|].
  rewrite IH. apply exec_paymentStorage.
Qed.

Lemma run_paymentStorage f history : paymentStorage (run f history) = ∅.
Proof. unfold run. rewrite foldl_exec_paymentStorage. reflexivity. Qed.

Lemma step_roles_ok f st msg : roles_ok st → roles_ok (step f st msg).
Proof.
  intros Hst. destruct msg as [env []]; unfold step, committed; simpl.
  all: try (rewrite processPayment_rejects; exact Hst).
  all: unfold_method.
  all: repeat case_match; simplify_eq/=; try exact Hst.
  unfold roles_ok; simpl. apply map_Forall_insert_2; [|exact Hst].
  simpl. match goal with H : negb (bool_decide _) = false |- _ =>
    apply negb_false_iff, bool_decide_eq_true in H; exact H end.
Qed.

Lemma run_roles_ok f history : roles_ok (run f history).
Proof.
  unfold run.
  assert (G : ∀ st, roles_ok st → roles_ok (foldl (exec f) st history)).
  { induction history as [|ev history IH]; intros st Hst; simpl; [exact Hst|].
    apply IH. destruct ev; simpl; [apply step_roles_ok|]; exact Hst. }
  apply G. unfold roles_ok, init_state; simpl. apply map_Forall_empty.
Qed.





(** ** Claims about payments *)

(** C10.  For every caller and every input, [processPayment] returns an
    error and leaves every stable map, the payments among them, as it was.
    The eligibility test compares the boolean status of the listing with the
    string ["active"], which are never strictly equal; and in every state the
    canister can reach no user carries the role ["buyer"] that the next test
    asks for. *)
Theorem processPayment_always_rejects :
  ∀ f env wasteId amount method st,
    processPayment f env wasteId amount method st
    = (Returned (Err (BadRequest "Invalid waste item")), st)
    ∧ (∀ w : Waste, strict_neq (VBool (waste_status w)) (VString "active") = true)
    ∧ (∀ history,
         map_Forall (λ _ u, strict_neq (VString (user_role u)) (VString "buyer") = true)
           (userStorage (run f history))).
Proof.
  intros f env wasteId amount method st. split; [apply processPayment_rejects|].
  split; [reflexivity|].
  intros history p u Hu.
  pose proof (run_roles_ok f history p u Hu) as Hrole. simpl in Hrole.
  unfold USER_ROLES in Hrole.
  apply elem_of_cons in Hrole as [-> | Hrole]; [reflexivity|].
  apply elem_of_cons in Hrole as [-> | Hrole]; [reflexivity|].
  apply elem_of_nil in Hrole. destruct Hrole.
Qed.

(** ** Claims about listings *)

(** C6.  Evaluation at the failing input.  Alice registers with
    [createUser("sender")] and then calls [createWaste]: the answer is
    [Forbidden], not a stored listing.  The same holds in every state and
    for every payload: line 239 reads [status] from the stored user, the
    declared [User] record has no such field, and the missing value counts
    as inactive.  A caller who is not registered gets [Unauthorized].
    Neither call changes the state. *)
Theorem createWaste_registered_caller_forbidden :
  (∀ f payload,
     createWaste (env_of alice 4) payload
       (run f [Message (env_of alice 1) (CallCreateUser "sender")])
     = (Returned (Err (Forbidden "Account is currently deactived")),
        run f [Message (env_of alice 1) (CallCreateUser "sender")]))
  ∧ (∀ env payload st,
       createWaste env payload st
       = match userStorage st !! caller env with
         | Some _ => (Returned (Err (Forbidden "Account is currently deactived")), st)
         | None => (Returned (Err (Unauthorized "Create an account first")), st)
         end).
Proof.
  assert (G : ∀ env payload st,
       createWaste env payload st
       = match userStorage st !! caller env with
         | Some _ => (Returned (Err (Forbidden "Account is currently deactived")), st)
         | None => (Returned (Err (Unauthorized "Create an account first")), st)
         end).
  { intros env payload st. unfold_method.
    destruct (userStorage st !! caller env) as [u|] eqn:Hu.
    - rewrite (containsKey_true _ _ _ Hu). reflexivity.
    - rewrite (containsKey_false _ _ Hu). reflexivity. }
  split; [|exact G].
  intros f payload. rewrite G. reflexivity.
Qed.




(** ** Claims about error handling *)

(** C9.  Evaluation at the failing input.  On the freshly installed
    canister, where no caller is registered, [getInactiveWastes] ends in an
    uncaught [TypeError] for every caller: the role is read outside the
    [try] block. *)
Theorem getInactiveWastes_unregistered_uncaught :
  ∀ env,
    getInactiveWastes env init_state
    = (Uncaught (TypeError "Cannot read properties of undefined (reading 'role')"),
       init_state).
Proof. intros env. reflexivity. Qed.

(** [getInactiveWastes] traps for an unregistered caller in every state. *)
Lemma getInactiveWastes_unregistered env st :
  userStorage st !! caller env = None →
  getInactiveWastes env st
  = (Uncaught (TypeError "Cannot read properties of undefined (reading 'role')"), st).
Proof. intros Hu. unfold_method. rewrite Hu. reflexivity. Qed.

(** The other eleven methods return a tagged result for every caller and
    every input. *)
Lemma sibling_methods_return f env st :
  (∃ r, (initOwner env st).1 = Returned r)
  ∧ (∀ name, ∃ r, (createUser env name st).1 = Returned r)
  ∧ (∃ r, (getUsers env st).1 = Returned r)
  ∧ (∃ r, (getMe env st).1 = Returned r)
  ∧ (∀ id, ∃ r, (getActiveWasteById env id st).1 = Returned r)
  ∧ (∀ p, ∃ r, (createWaste env p st).1 = Returned r)
  ∧ (∀ p, ∃ r, (updateWaste env p st).1 = Returned r)
  ∧ (∃ r, (getActiveWastes env st).1 = Returned r)
  ∧ (∃ r, (getAllCategories env st).1 = Returned r)
  ∧ (∀ p, ∃ r, (createCategory env p st).1 = Returned r)
  ∧ (∀ c, ∃ r, (getActiveWasteByCategory env c st).1 = Returned r)
  ∧ (∀ w a m, ∃ r, (processPayment f env w a m st).1 = Returned r).
Proof.
  repeat split; intros; try (rewrite processPayment_rejects; eauto; fail);
    unfold_method; repeat case_match; simplify_eq/=; eauto.
Qed.

(** ** The fee *)

(** The fee expression of lines 439-445, taken by itself, is the binary64
    product [Number(amount) * 0.05]: at [90071992547409936] it is the
    integer [4503599627370497], one more than [floor(amount * 5 / 100)], and
    at [7] it is not an integer. *)
Lemma fee_expression_is_a_binary64_product :
  integer_of_float (feesAsNumber 90071992547409936) = Some 4503599627370497
  ∧ fee_spec 90071992547409936 = 4503599627370496
  ∧ integer_of_float (feesAsNumber 7) = None
  ∧ fee_spec 7 = 0.
Proof. repeat split; vm_compute; reflexivity. Qed.


(** ** Correlation ids *)

Lemma wrap32_range z : - 2 ^ 31 <= wrap32 z < 2 ^ 31.
Proof.
  unfold wrap32.
  pose proof (Z.mod_pos_bound (z + 2 ^ 31) (2 ^ 32) ltac:(lia)). lia.
Qed.

Lemma hash31_range bs : - 2 ^ 31 <= hash31 bs < 2 ^ 31.
Proof.
  unfold hash31.
  induction bs as [|b bs IH] using rev_ind; simpl; [lia|].
  rewrite foldl_app. simpl. apply wrap32_range.
Qed.

(** ** The ledger verifier *)

Lemma matches_transfer_hash_match hv addr env receiver amount memo_ b :
  matches_transfer hv addr env receiver amount memo_ b = true
  ↔ hash_match hv addr env receiver amount memo_ b.
Proof.
  unfold matches_transfer, hash_match.
  destruct (operation (transaction b)) as [[from to amt fee | to amt | from amt]|]; simpl.
  - rewrite !andb_true_iff, !Z.eqb_eq. split.
    + intros [[[Hm Hs] Hr] Ha]. exists from, to, amt, fee.
      repeat split; congruence.
    + intros (from' & to' & amt' & fee' & Hop & Hm & Hs & Hr & Ha).
      injection Hop as <- <- <- <-.
      repeat split; congruence.
  - rewrite andb_false_r. split; [discriminate|].
    intros (? & ? & ? & ? & Hop & _). discriminate.
  - rewrite andb_false_r. split; [discriminate|].
    intros (? & ? & ? & ? & Hop & _). discriminate.
  - split; [discriminate|]. intros (? & ? & ? & ? & Hop & _). discriminate.
Qed.

Lemma exact_match_hash_match hv addr env receiver amount memo_ b :
  exact_match addr env receiver amount memo_ b →
  hash_match hv addr env receiver amount memo_ b.
Proof.
  intros (from & to & amt & fee & Hop & Hm & -> & -> & Ha).
  eexists _, _, _, _. eauto.
Qed.

Lemma find_is_Some_Exists {A} (f : A → bool) (l : list A) :
  (match List.find f l with Some _ => true | None => false end) = true
  ↔ Exists (λ x, f x = true) l.
Proof.
  induction l as [|x l IH]; simpl.
  - split; [discriminate | intros H; inversion H].
  - destruct (f x) eqn:E.
    + split; [intros _; left; exact E | reflexivity].
    + rewrite IH. split; [intros H; right; exact H|].
      intros H. inversion H; subst; [congruence | assumption].
Qed.

(** C8, as amended.  When the ledger call is answered with a window of
    blocks, [verifyPaymentInternal] returns a boolean, and that boolean is
    [true] if and only if some block of the window holds a transfer whose
    memo equals the correlation id, whose amount equals the requested
    amount, and whose source and destination addresses have the same [hash]
    as the caller's and the receiver's derived addresses.  A transfer with
    exactly the derived addresses is such a transfer.  When the ledger call
    is rejected, the rejection is passed on. *)
Theorem verifyPaymentInternal_hash_match :
  ∀ hashCode_value binaryAddressFromPrincipal ledger env receiver amount block memo_,
    match ledger block 1 with
    | Returned blockData =>
      ∃ b, verifyPaymentInternal hashCode_value binaryAddressFromPrincipal ledger
             env receiver amount block memo_ = Returned b
           ∧ (b = true ↔
              Exists (hash_match hashCode_value binaryAddressFromPrincipal
                        env receiver amount memo_) (blocks blockData))
           ∧ (Exists (exact_match binaryAddressFromPrincipal env receiver amount memo_)
                (blocks blockData) → b = true)
    | Uncaught e =>
      verifyPaymentInternal hashCode_value binaryAddressFromPrincipal ledger
        env receiver amount block memo_ = Uncaught e
    end.
Proof.
  intros hv addr ledger env receiver amount block memo_.
  unfold verifyPaymentInternal.
  destruct (ledger block 1) as [blockData|e]; [|reflexivity].
  eexists. split; [reflexivity|].
  assert (Hiff : (match List.find (matches_transfer hv addr env receiver amount memo_)
                          (blocks blockData) with Some _ => true | None => false end) = true
                 ↔ Exists (hash_match hv addr env receiver amount memo_) (blocks blockData)).
  { rewrite find_is_Some_Exists. rewrite !Exists_exists.
    split; intros (x & Hx & Hm); exists x; split; auto;
      apply matches_transfer_hash_match; exact Hm. }
  split; [exact Hiff|].
  intros Hex. apply Hiff. rewrite Exists_exists in *.
  destruct Hex as (x & Hx & Hm). exists x. split; [exact Hx|].
  apply exact_match_hash_match. exact Hm.
Qed.

(** C8, counterexample.  With the sample hash, Alice as caller and Bob as
    receiver, the verifier returns [true] on a window whose only transfer
    comes from an address that is not Alice's. *)
Lemma verifyPaymentInternal_accepts_colliding_address :
  verifyPaymentInternal sample_hashCode sample_address sample_ledger
    (env_of alice 7) bob 1000 0 42 = Returned true
  ∧ ¬ Exists (exact_match sample_address (env_of alice 7) bob 1000 42)
        [ mkBlock (mkTransaction 42
            (Some (Transfer colliding_address (sample_address bob 0)
                     (mkTokens 1000) (mkTokens 10)))) ].
Proof.
  split; [vm_compute; reflexivity|].
  intros H. apply Exists_cons in H as [H | H]; [|inversion H].
  destruct H as (from & to & amt & fee & Hop & _ & Hfrom & _).
  simpl in Hop. injection Hop as <- _ _ _.
  vm_compute in Hfrom. discriminate.
Qed.

(** Whatever function [hashCode().value] is, as long as [hash] yields
    64-bit numbers there are two different byte arrays with the same
    [hash]. *)
Lemma pigeonhole (n : nat) (f : nat → nat) :
  (∀ i, (i ≤ n)%nat → (f i < n)%nat) →
  ∃ i j, (i < j ≤ n)%nat ∧ f i = f j.
Proof.
  revert f. induction n as [|n IH]; intros f Hf.
  - specialize (Hf 0%nat ltac:(lia)). lia.
  - destruct (decide (Exists (λ i, f i = f (S n)) (seq 0 (S n)))) as [Hex | Hnex].
    + apply Exists_exists in Hex as (i & Hi & E).
      apply elem_of_seq in Hi. exists i, (S n). split; [lia | exact E].
    + assert (Hne : ∀ i, (i ≤ n)%nat → f i ≠ f (S n)).
      { intros i Hi E. apply Hnex. apply Exists_exists. exists i.
        split; [apply elem_of_seq; lia | exact E]. }
      set (g := λ i, if decide (f i < f (S n))%nat then f i else pred (f i)).
      destruct (IH g) as (i & j & Hij & E).
      { intros i Hi. unfold g.
        pose proof (Hf i ltac:(lia)). pose proof (Hf (S n) ltac:(lia)).
        pose proof (Hne i Hi). case_decide; lia. }
      exists i, j. split; [lia|].
      pose proof (Hne i ltac:(lia)). pose proof (Hne j ltac:(lia)).
      unfold g in E. repeat case_decide; lia.
Qed.

Lemma hash_collision_exists (hashCode_value : value → Z) :
  (∀ v, hash hashCode_value v < 2 ^ 64) →
  ∃ a b : list byte,
    a ≠ b ∧ hash hashCode_value (VBytes a) = hash hashCode_value (VBytes b).
Proof.
  intros Hrange.
  destruct (pigeonhole (Z.to_nat (2 ^ 64))
              (λ i, Z.to_nat (hash hashCode_value (VBytes (replicate i x00%byte)))))
    as (i & j & Hij & E).
  { intros i _. specialize (Hrange (VBytes (replicate i x00%byte))).
    unfold hash in *. apply Z2Nat.inj_lt; [apply Z.abs_nonneg | lia | exact Hrange]. }
  exists (replicate i x00%byte), (replicate j x00%byte). split.
  - intros Heq. apply (f_equal length) in Heq. rewrite !length_replicate in Heq. lia.
  - apply Z2Nat.inj in E; [exact E | apply Z.abs_nonneg | apply Z.abs_nonneg].
Qed.

(** Whatever the hash and the address derivation are, as long as [hash]
    yields 64-bit numbers and different principals have different
    addresses, some caller is credited with a transfer that came from
    another principal's address. *)
Lemma verifyPaymentInternal_credits_foreign_transfer
    (hashCode_value : value → Z) (binaryAddressFromPrincipal : Principal → Z → list byte) :
  (∀ v, hash hashCode_value v < 2 ^ 64) →
  (∀ p q, binaryAddressFromPrincipal p 0 = binaryAddressFromPrincipal q 0 → p = q) →
  ∃ env receiver amount memo_ blockData,
    verifyPaymentInternal hashCode_value binaryAddressFromPrincipal
      (λ _ _, Returned blockData) env receiver amount 0 memo_ = Returned true
    ∧ ¬ Exists (exact_match binaryAddressFromPrincipal env receiver amount memo_)
          (blocks blockData).
Proof.
  intros Hrange Hinj.
  set (who := λ i : nat, mkPrincipal (pretty i)).
  destruct (pigeonhole (Z.to_nat (2 ^ 64))
              (λ i, Z.to_nat (hash hashCode_value
                                (VBytes (binaryAddressFromPrincipal (who i) 0)))))
    as (i & j & Hij & E).
  { intros i _.
    apply Z2Nat.inj_lt; [apply Z.abs_nonneg | lia | apply Hrange]. }
  apply Z2Nat.inj in E; [| apply Z.abs_nonneg | apply Z.abs_nonneg].
  set (b := mkBlock (mkTransaction 42
    (Some (Transfer (binaryAddressFromPrincipal (who j) 0)
             (binaryAddressFromPrincipal bob 0) (mkTokens 1000) (mkTokens 10))))).
  exists (env_of (who i) 7), bob, 1000, 42, (mkQueryBlocksResponse [b]).
  split.
  - unfold verifyPaymentInternal. simpl.
    assert (Hm : matches_transfer hashCode_value binaryAddressFromPrincipal
                   (env_of (who i) 7) bob 1000 42 b = true).
    { apply matches_transfer_hash_match. unfold hash_match.
      eexists _, _, _, _. split; [reflexivity|]. simpl. auto. }
    rewrite Hm. reflexivity.
  - intros H. apply Exists_cons in H as [H | H]; [|inversion H].
    destruct H as (from & to & amt & fee & Hop & _ & Hfrom & _).
    simpl in Hop. injection Hop as <- _ _ _.
    simpl in Hfrom. apply Hinj in Hfrom. unfold who in Hfrom.
    injection Hfrom as Hfrom. apply (inj pretty) in Hfrom. lia.
Qed.

(** * Further properties of the canister *)

(** ** Which messages write, and what *)

Lemma isEmpty_false_inv `{Countable K} {V} (m : gmap K V) :
  negb (isEmpty m) = false → m = ∅.
Proof.
  unfold isEmpty. intros E. apply negb_false_iff, bool_decide_eq_true in E. exact E.
Qed.

Lemma containsKey_inv `{Countable K} {V} (m : gmap K V) k :
  containsKey m k = true → is_Some (m !! k).
Proof. unfold containsKey. intros E. apply bool_decide_eq_true in E. exact E. Qed.

Lemma containsKey_false_inv `{Countable K} {V} (m : gmap K V) k :
  containsKey m k = false → m !! k = None.
Proof.
  unfold containsKey. intros E. apply bool_decide_eq_false in E.
  destruct (m !! k); [exfalso; apply E; eauto | reflexivity].
Qed.

(** The effect of one message on the state: nothing, or one of two
    insertions, each under the condition its method tests. *)
Lemma step_effect f st env c :
  step f st (env, c) = st
  ∨ (c = CallInitOwner
     ∧ ownerStorage st = ∅
     ∧ step f st (env, c)
       = set_ownerStorage <[caller env := mkOwner (caller env) (time env) (time env)]> st)
  ∨ (∃ name, c = CallCreateUser name
     ∧ userStorage st !! caller env = None
     ∧ name ∈ USER_ROLES
     ∧ step f st (env, c)
       = set_userStorage
           <[caller env := mkUser (caller env) name name (time env) (time env)]> st).
Proof.
  destruct c; unfold step, committed; simpl.
  all: try (rewrite processPayment_rejects; left; reflexivity).
  all: try (pose proof (updateWaste_state env wastepayload st) as E;
            destruct (updateWaste env wastepayload st) as [[r|e] st'];
            simpl in E; subst; left; reflexivity).
  - (* initOwner *)
    unfold_method. destruct (negb (isEmpty (ownerStorage st))) eqn:E; [left; reflexivity|].
    right; left. apply isEmpty_false_inv in E. auto.
  - (* createUser *)
    unfold_method. destruct (containsKey (userStorage st) (caller env)) eqn:E;
      [left; reflexivity|].
    destruct (negb (bool_decide (name ∈ USER_ROLES))) eqn:E2; [left; reflexivity|].
    right; right. exists name.
    apply containsKey_false_inv in E.
    apply negb_false_iff, bool_decide_eq_true in E2. auto.
  - unfold_method. repeat case_match; simplify_eq/=; left; reflexivity.
  - unfold_method. repeat case_match; simplify_eq/=; left; reflexivity.
  - unfold_method. repeat case_match; simplify_eq/=; left; reflexivity.
  - unfold_method. repeat case_match; simplify_eq/=; left; reflexivity.
  - unfold_method. repeat case_match; simplify_eq/=; left; reflexivity.
  - unfold_method. repeat case_match; simplify_eq/=; left; reflexivity.
  - unfold_method. repeat case_match; simplify_eq/=; left; reflexivity.
  - unfold_method. repeat case_match; simplify_eq/=; left; reflexivity.
  - unfold_method. repeat case_match; simplify_eq/=; left; reflexivity.
Qed.

Lemma run_snoc f history ev : run f (history ++ [ev]) = exec f (run f history) ev.
Proof. unfold run. rewrite foldl_app. reflexivity. Qed.

Lemma run_invariant f (P : State → Prop) :
  P init_state →
  (∀ st env c, P st → P (step f st (env, c))) →
  ∀ history, P (run f history).
Proof.
  intros H0 Hstep history.
  induction history as [|ev history IH] using rev_ind; [exact H0|].
  rewrite run_snoc. destruct ev; simpl; [apply Hstep|]; exact IH.
Qed.

Lemma step_state_wf f st env c : state_wf st → state_wf (step f st (env, c)).
Proof.
  intros (Hsize & Hown & Husers & Hwastes & Hcats & Hpays).
  destruct (step_effect f st env c)
    as [-> | [(-> & Hempty & ->) | (name & -> & Hnone & Hrole & ->)]].
  - unfold state_wf; split_and!; assumption.
  - unfold state_wf; simpl. rewrite Hempty. split_and!; auto.
    + rewrite insert_empty, map_size_singleton. lia.
    + apply map_Forall_insert_2; [reflexivity | apply map_Forall_empty].
  - unfold state_wf; simpl. split_and!; auto.
    apply map_Forall_insert_2; [|exact Husers].
    unfold user_wf; simpl. auto.
Qed.

Lemma init_state_wf : state_wf init_state.
Proof.
  unfold state_wf, init_state; simpl.
  split_and!; try reflexivity; [rewrite map_size_empty; lia | apply map_Forall_empty..].
Qed.

Lemma run_state_wf f history : state_wf (run f history).
Proof. apply run_invariant; [apply init_state_wf | intros; apply step_state_wf; assumption]. Qed.

Lemma values_elem `{Countable K} {V} (m : gmap K V) (v : V) :
  v ∈ values m ↔ ∃ k, m !! k = Some v.
Proof.
  unfold values. rewrite list_elem_of_fmap. split.
  - intros ([k v'] & -> & Hin). apply elem_of_map_to_list in Hin. eauto.
  - intros (k & Hk). exists (k, v). split; [reflexivity|].
    apply elem_of_map_to_list. exact Hk.
Qed.

Lemma isEmpty_insert `{Countable K} {V} (m : gmap K V) k v :
  isEmpty (<[k := v]> m) = false.
Proof. unfold isEmpty. apply bool_decide_eq_false. apply insert_non_empty. Qed.

Lemma exec_ownerStorage f st ev :
  ownerStorage st ≠ ∅ → ownerStorage (exec f st ev) = ownerStorage st.
Proof.
  intros Hne. destruct ev as [env c | ]; simpl; [|reflexivity].
  destruct (step_effect f st env c)
    as [-> | [(-> & Hempty & ->) | (name & -> & Hnone & Hrole & ->)]];
    try reflexivity.
  contradiction.
Qed.

Lemma foldl_exec_ownerStorage f history st :
  ownerStorage st ≠ ∅ → ownerStorage (foldl (exec f) st history) = ownerStorage st.
Proof.
  revert st. induction history as [|ev history IH]; intros st Hne; simpl; [reflexivity|].
  rewrite IH; rewrite exec_ownerStorage by exact Hne; [reflexivity | exact Hne].
Qed.

Lemma exec_userStorage f st ev p u :
  userStorage st !! p = Some u → userStorage (exec f st ev) !! p = Some u.
Proof.
  intros Hp. destruct ev as [env c | ]; simpl; [|exact Hp].
  destruct (step_effect f st env c)
    as [-> | [(-> & Hempty & ->) | (name & -> & Hnone & Hrole & ->)]];
    simpl; try exact Hp.
  rewrite lookup_insert_ne; [exact Hp|]. intros <-. congruence.
Qed.

(** ** The owner *)

(** X1.  Whatever [initOwner] did, a further [initOwner], by any caller,
    answers [BadRequest] and changes nothing: the owner is initialised at
    most once. *)
Theorem initOwner_only_once :
  ∀ env env2 st,
    initOwner env2 (committed (initOwner env) st)
    = (Returned (Err (BadRequest "Owner has already been initialized")),
       committed (initOwner env) st).
Proof.
  intros env env2 st. unfold committed.
  unfold initOwner at 2 3. unfold_method.
  destruct (negb (isEmpty (ownerStorage st))) eqn:E; simpl.
  - unfold initOwner, mbind, M_bind, get_state. rewrite E. reflexivity.
  - unfold initOwner, mbind, M_bind, get_state. simpl.
    rewrite isEmpty_insert. reflexivity.
Qed.

(** X2.  The caller of an [initOwner] that reaches the freshly installed
    canister is the owner after every later history, and the only one. *)
Theorem first_initOwner_caller_stays_sole_owner :
  ∀ f env history,
    ownerStorage (run f (Message env CallInitOwner :: history))
    = {[ caller env := mkOwner (caller env) (time env) (time env) ]}.
Proof.
  intros f env history.
  assert (E : exec f init_state (Message env CallInitOwner)
            = set_ownerStorage
                <[caller env := mkOwner (caller env) (time env) (time env)]> init_state).
  { simpl. unfold step, committed; simpl. unfold_method. simpl.
    unfold isEmpty. rewrite bool_decide_eq_true_2 by reflexivity. reflexivity. }
  change (run f (Message env CallInitOwner :: history))
    with (foldl (exec f) (exec f init_state (Message env CallInitOwner)) history).
  rewrite E.
  rewrite foldl_exec_ownerStorage; [reflexivity|].
  simpl. apply insert_non_empty.
Qed.

(** ** Users *)

(** X3.  After a [createUser] that succeeds, [getMe] for the same caller
    returns the declared fields of the user that [createUser] returned (the
    stored record has no [status]), and a second [createUser] by that
    caller, with any role, answers [UserAlreadyExists]; both leave the
    state as it is.  A [createUser] that does not succeed leaves the state
    as it was. *)
Theorem createUser_then_getMe :
  ∀ env name st t uuid name2,
    match createUser env name st with
    | (Returned (Ok u), st1) =>
      getMe (again env t uuid) st1 = (Returned (Ok (stored_User u)), st1)
      ∧ createUser (again env t uuid) name2 st1
        = (Returned (Err (UserAlreadyExists "You already have an account")), st1)
    | (_, st1) => st1 = st
    end.
Proof.
  intros env name st t uuid name2. unfold_method.
  destruct (containsKey (userStorage st) (caller env)) eqn:E; [reflexivity|].
  destruct (negb (bool_decide (name ∈ USER_ROLES))) eqn:E2; [reflexivity|].
  simpl. unfold containsKey. rewrite lookup_insert_eq.
  rewrite bool_decide_eq_true_2 by eauto. simpl. split; reflexivity.
Qed.

(** X4.  In every state the canister can reach, every registered user is
    stored under its own principal, has its role as its name, has a role
    from [USER_ROLES], and was never updated. *)
Theorem registered_users_well_formed :
  ∀ f history, map_Forall user_wf (userStorage (run f history)).
Proof. intros f history. apply (run_state_wf f history). Qed.

(** X5.  No history changes or removes a registered user: once a principal
    is registered, its record, the role included, stays what it is. *)
Theorem user_record_is_permanent :
  ∀ f history st p u,
    userStorage st !! p = Some u →
    userStorage (foldl (exec f) st history) !! p = Some u.
Proof.
  intros f history. induction history as [|ev history IH]; intros st p u Hp; simpl.
  - exact Hp.
  - apply IH. apply exec_userStorage. exact Hp.
Qed.

Lemma user_record_is_permanent_witness :
  let history :=
    [ Message (env_of alice 20) (CallCreateUser "receiver");
      Message (env_of bob 21) (CallUpdateWaste (sample_payload "w1" true)) ] in
  let u := mkUser alice "sender" "sender" 1 1 in
  userStorage sample_state !! alice = Some u
  ∧ userStorage (foldl (exec BigInt) sample_state history) !! alice = Some u.
Proof.
  intros history u.
  assert (Hp : userStorage sample_state !! alice = Some u) by (vm_compute; reflexivity).
  split; [exact Hp|].
  exact (user_record_is_permanent BigInt history sample_state alice u Hp).
Defined.

(** ** What is never stored *)

(** X6.  In every state the canister can reach, the listing store, the
    category store and the payment store are empty: [createWaste],
    [updateWaste], [createCategory] and [processPayment] never complete an
    insert. *)
Theorem only_owner_and_users_are_stored :
  ∀ f history,
    wasteStorage (run f history) = ∅
    ∧ categoryStorage (run f history) = ∅
    ∧ paymentStorage (run f history) = ∅.
Proof.
  intros f history.
  destruct (run_state_wf f history) as (_ & _ & _ & Hw & Hc & Hp). auto.
Qed.

(** X7.  [createCategory] stores nothing: the owner gets [InternalError],
    since [newCategory] does not fit the declared [Category] record, and
    every other caller gets [Forbidden]; the state is unchanged in both
    cases. *)
Theorem createCategory_never_stores :
  ∀ env payload st,
    if isOwner st (caller env) then
      ∃ msg, createCategory env payload st = (Returned (Err (InternalError msg)), st)
    else
      createCategory env payload st
      = (Returned (Err (Forbidden "Action reserved for new waste category")), st).
Proof.
  intros env payload st. unfold_method.
  destruct (isOwner st (caller env)); [eexists|]; reflexivity.
Qed.

Lemma filter_never {A} (P : A → bool) (l : list A) :
  (∀ x, P x = false) → List.filter P l = [].
Proof.
  intros HP. induction l as [|x l IH]; simpl; [reflexivity|].
  rewrite HP. exact IH.
Qed.

Lemma strict_eq_VString v s : strict_eq v (VString s) = true ↔ v = VString s.
Proof.
  destruct v; simpl; try (split; [discriminate | intros ?; discriminate]).
  rewrite String.eqb_eq. split; [intros ->; reflexivity | intros [= ->]; reflexivity].
Qed.


(** X8.  [getActiveWastes] answers [Ok] with the empty list in every state:
    its filter keeps the listings whose boolean status is strictly equal to
    the string ["active"], and there are none. *)
Theorem getActiveWastes_always_empty :
  ∀ env st, getActiveWastes env st = (Returned (Ok []), st).
Proof.
  intros env st. unfold_method.
  rewrite filter_never; [reflexivity|]. intros w. reflexivity.
Qed.

(** X9.  In every state the canister can reach, [getInactiveWastes] never
    answers [Ok]: a registered caller gets [Forbidden], because no user has
    the role ["buyer"], and an unregistered caller makes it stop with an
    uncaught [TypeError]. *)
Theorem getInactiveWastes_never_answers :
  ∀ f history env,
    getInactiveWastes env (run f history)
    = match userStorage (run f history) !! caller env with
      | Some _ =>
        (Returned (Err (Forbidden "Only buyer can verify and edit your waste items")),
         run f history)
      | None =>
        (Uncaught (TypeError "Cannot read properties of undefined (reading 'role')"),
         run f history)
      end.
Proof.
  intros f history env. unfold_method.
  destruct (userStorage (run f history) !! caller env) as [u|] eqn:Hu; [|reflexivity].
  simpl. pose proof (run_roles_ok f history _ _ Hu) as Hrole. simpl in Hrole.
  unfold USER_ROLES in Hrole.
  apply elem_of_cons in Hrole as [-> | Hrole]; [reflexivity|].
  apply elem_of_cons in Hrole as [-> | Hrole]; [reflexivity|].
  apply elem_of_nil in Hrole. destruct Hrole.
Qed.

(** X11.  [createWaste] touches one key of the listing store, the id of the
    payload: every other listing, and the owner, user, category and payment
    stores, are the same after the call as before. *)
Theorem createWaste_frame :
  ∀ env payload st k,
    k ≠ wp_id payload →
    wasteStorage (createWaste env payload st).2 !! k = wasteStorage st !! k
    ∧ ownerStorage (createWaste env payload st).2 = ownerStorage st
    ∧ userStorage (createWaste env payload st).2 = userStorage st
    ∧ categoryStorage (createWaste env payload st).2 = categoryStorage st
    ∧ paymentStorage (createWaste env payload st).2 = paymentStorage st.
Proof.
  intros env payload st k Hne.
  assert (E : (createWaste env payload st).2 = st).
  { unfold_method. repeat case_match; simplify_eq/=; reflexivity. }
  rewrite E. split_and!; reflexivity.
Qed.

Lemma createWaste_frame_witness :
  let env := env_of carol 30 in
  let payload := sample_payload "w3" true in
  let st1 := (createWaste env payload sample_state).2 in
  VString "w1" ≠ wp_id payload
  ∧ wasteStorage st1 !! VString "w1" = wasteStorage sample_state !! VString "w1"
  ∧ ownerStorage st1 = ownerStorage sample_state
  ∧ userStorage st1 = userStorage sample_state
  ∧ categoryStorage st1 = categoryStorage sample_state
  ∧ paymentStorage st1 = paymentStorage sample_state.
Proof.
  intros env payload st1.
  assert (Hne : VString "w1" ≠ wp_id payload) by (simpl; discriminate).
  split; [exact Hne|].
  exact (createWaste_frame env payload sample_state (VString "w1") Hne).
Defined.

(** X13.  [getActiveWasteByCategory c] answers [Ok] with exactly the stored
    listings whose [categoryId] is the string [c] and whose status is
    [true]; a listing whose [categoryId] is not a string is in no answer. *)
Theorem getActiveWasteByCategory_exact :
  ∀ env categoryId st,
    ∃ l, getActiveWasteByCategory env categoryId st = (Returned (Ok l), st)
         ∧ ∀ w, w ∈ l ↔
                (∃ k, wasteStorage st !! k = Some w)
                ∧ waste_categoryId w = VString categoryId
                ∧ waste_status w = true.
Proof.
  intros env c st. unfold_method. eexists. split; [reflexivity|].
  intros w. rewrite list_elem_of_In, filter_In, <- list_elem_of_In, values_elem.
  rewrite andb_true_iff, strict_eq_VString. split.
  - intros [[k Hk] [Hc Hs]]. split_and!; [|exact Hc|exact Hs].
    exists (VString k). exact Hk.
  - intros ([k Hk] & Hc & Hs). apply lookup_value_inv in Hk as (k' & -> & Hk).
    split; [eauto | auto].
Qed.

(** X14.  [getUsers] answers [Ok] exactly for the owner, and then with the
    registered users, each once per principal; everybody else gets
    [Forbidden]. *)
Theorem getUsers_owner_only :
  ∀ env st,
    if isOwner st (caller env) then
      ∃ l, getUsers env st = (Returned (Ok l), st)
           ∧ (∀ u, u ∈ l ↔ ∃ p, userStorage st !! p = Some u)
           ∧ length l = size (userStorage st)
    else
      getUsers env st
      = (Returned (Err (Forbidden "Action reserved for the contract owner")), st).
Proof.
  intros env st. unfold_method.
  destruct (isOwner st (caller env)); simpl; [|reflexivity].
  eexists. split; [reflexivity|]. split.
  - intros u. apply values_elem.
  - unfold values. rewrite length_fmap. apply length_map_to_list.
Qed.

(** ** What never happens *)

(** X17.  Nine of the thirteen methods leave the state as they found it,
    for every caller and input: the seven queries, [updateWaste] and
    [processPayment].  Only [initOwner], [createUser], [createWaste] and
    [createCategory] can write. *)
Theorem only_four_methods_write :
  ∀ f st env c,
    match c with
    | CallInitOwner | CallCreateUser _ | CallCreateWaste _ | CallCreateCategory _ => True
    | _ => step f st (env, c) = st
    end.
Proof.
  intros f st env c.
  destruct (step_effect f st env c) as [E | [(-> & _) | (name & -> & _)]];
    try exact I.
  destruct c; try exact I; exact E.
Qed.

(** X18.  [updateWaste] never answers [Ok] and never changes the state:
    for every caller, payload and state it returns an error and the state
    it was given. *)
Theorem updateWaste_never_updates :
  ∀ env payload st, ∃ e, updateWaste env payload st = (Returned (Err e), st).
Proof.
  intros env payload st.
  pose proof (updateWaste_state env payload st) as Hst.
  destruct (updateWaste_results env payload st) as [msg [E | [E | E]]];
    destruct (updateWaste env payload st) as [r st']; simpl in *; subst; eauto.
Qed.



(** ** Correlation ids *)

Lemma sample_hash_bound v : hash sample_hashCode v < 2 ^ 31 + 1.
Proof.
  unfold hash. destruct v; simpl; try lia.
  - pose proof (hash31_range (string_codes s)). lia.
  - pose proof (hash31_range ((λ b, Z.of_N (Byte.to_N b)) <$> bs)). lia.
Qed.

(** X22.  When [hash] takes fewer values than there are [nat64] clock
    values, the correlation ids of one listing and one caller collide: two
    different clock values below [2^64] give the same id. *)
Theorem generateCorrelationId_collides :
  ∀ hashCode_value B env productId,
    (∀ v, hash hashCode_value v < B) →
    B < 2 ^ 64 →
    ∃ t1 t2,
      0 <= t1 < t2 ∧ t2 < 2 ^ 64
      ∧ generateCorrelationId hashCode_value (again env t1 (uuidv4 env)) productId
        = generateCorrelationId hashCode_value (again env t2 (uuidv4 env)) productId.
Proof.
  intros hv B env productId Hrange HB.
  assert (HB0 : 0 < B).
  { specialize (Hrange VUndefined). unfold hash in Hrange.
    pose proof (Z.abs_nonneg (hv VUndefined)). lia. }
  destruct (pigeonhole (Z.to_nat B)
              (λ i, Z.to_nat (generateCorrelationId hv
                                (again env (Z.of_nat i) (uuidv4 env)) productId)))
    as (i & j & Hij & E).
  { intros i _. unfold generateCorrelationId.
    apply Z2Nat.inj_lt; [apply Z.abs_nonneg | lia | apply Hrange]. }
  apply Z2Nat.inj in E; [| apply Z.abs_nonneg | apply Z.abs_nonneg].
  exists (Z.of_nat i), (Z.of_nat j). split; [lia|]. split; [lia|]. exact E.
Qed.

Lemma generateCorrelationId_collides_witness :
  (∀ v, hash sample_hashCode v < 2 ^ 31 + 1)
  ∧ 2 ^ 31 + 1 < 2 ^ 64
  ∧ ∃ t1 t2,
      0 <= t1 < t2 ∧ t2 < 2 ^ 64
      ∧ generateCorrelationId sample_hashCode
          (again (env_of alice 0) t1 (uuidv4 (env_of alice 0))) "w1"
        = generateCorrelationId sample_hashCode
            (again (env_of alice 0) t2 (uuidv4 (env_of alice 0))) "w1".
Proof.
  assert (HB : 2 ^ 31 + 1 < 2 ^ 64) by lia.
  split; [exact sample_hash_bound|]. split; [exact HB|].
  exact (generateCorrelationId_collides sample_hashCode (2 ^ 31 + 1)
           (env_of alice 0) "w1" sample_hash_bound HB).
Defined.

(** ** The fee *)

Lemma all_from_spec (P : Z → bool) n a z :
  all_from P a n = true → a <= z < a + Z.of_nat n → P z = true.
Proof.
  revert a. induction n as [|n IH]; intros a Hall Hz; [lia|].
  simpl in Hall. apply andb_true_iff in Hall as [Ha Hall].
  destruct (decide (z = a)) as [-> | Hne]; [exact Ha|].
  apply (IH (a + 1)); [exact Hall | lia].
Qed.

Lemma fee_step_checked : all_from fee_step_agrees 0 (Z.to_nat 20001) = true.
Proof. vm_compute. reflexivity. Qed.

(** X23.  For every amount from 0 to 20000, the number
    [Number(amount) * 0.05] is an integer exactly when the amount is a
    multiple of 20, and then it is [amount / 20]; its integer part is
    [floor(amount * 5 / 100)] throughout. *)
Theorem feesAsNumber_on_small_amounts :
  ∀ amount,
    0 <= amount <= 20000 →
    integer_of_float (feesAsNumber amount)
    = (if amount mod 20 =? 0 then Some (amount / 20) else None)
    ∧ floor_of_float (feesAsNumber amount) = Some (fee_spec amount).
Proof.
  intros amount Hrange.
  pose proof (all_from_spec fee_step_agrees (Z.to_nat 20001) 0 amount fee_step_checked
                ltac:(lia)) as H.
  unfold fee_step_agrees in H. apply andb_true_iff in H as [H1 H2].
  apply bool_decide_eq_true in H1, H2. auto.
Qed.

Lemma feesAsNumber_on_small_amounts_witness :
  0 <= 1000 <= 20000
  ∧ integer_of_float (feesAsNumber 1000)
    = (if 1000 mod 20 =? 0 then Some (1000 / 20) else None)
  ∧ floor_of_float (feesAsNumber 1000) = Some (fee_spec 1000).
Proof.
  assert (H : 0 <= 1000 <= 20000) by lia.
  split; [exact H|]. exact (feesAsNumber_on_small_amounts 1000 H).
Defined.
